(** * Session-event preparation pipeline ([src/data_prep.py])

    A shallow embedding of [load_sessions], [flatten_events] and
    [build_session_features], together with the properties of the three
    stages.

    Conventions of the embedding.
    - A cell of a table holds a Python object; [value] keeps [None],
      booleans, integers and strings. Floats and nested containers are
      left out: in the [type] column they would behave like any present
      value that is not one of the three known strings.
    - A raising call returns [Raise e]; a returning call returns [Ok v].
    - The session identifier is an integer, as the docstring of
      [load_sessions] says ([{"session": int, ...}]).
    - The two library calls the loader depends on, opening a file and
      [json.loads], are parameters of the model.
    - [flatten_events] is embedded twice: on typed records, which is what
      the aggregator consumes, and on untyped Python objects, where a
      missing key or a wrong shape raises as in the source. The two are
      related in the last part of the file.
    - [save_parquet] only creates directories and writes a file through
      [pathlib] and [pandas]; it has no logic of its own to state. *)

From stdpp Require Import base numbers list sorting strings.

Open Scope string_scope.
Open Scope Z_scope.
Open Scope list_scope.

(** ** Python values and exceptions *)

Inductive value : Type :=
  | VNone
  | VBool (b : bool)
  | VInt (z : Z)
  | VStr (s : string).

Global Instance value_eq_dec : EqDecision value.
Proof. solve_decision. Defined.

Inductive exn : Type :=
  | OSError
  | JSONDecodeError
  | ValueError (msg : string).

Inductive result (A : Type) : Type :=
  | Ok (a : A)
  | Raise (e : exn).
Arguments Ok {A} a.
Arguments Raise {A} e.

Global Instance result_bind : MBind result := λ A B f m,
  match m with
  | Ok a => f a
  | Raise e => Raise e
  end.

(** ** Session loader *)

Section loader.
(** What one line parses to is left open: the loader never inspects it. *)
Context {record : Type}.
(** [json.loads]: [None] stands for a [JSONDecodeError]. *)
Variable json_loads : string → option record.
(** [Path(path).open("r")]: [None] stands for an [OSError]
    (missing or unreadable file), [Some ls] for the lines of the file. *)
Variable path_open : string → option (list string).

Definition loads (line : string) : result record :=
  match json_loads line with
  | Some r => Ok r
  | None => Raise JSONDecodeError
  end.

Definition open (path : string) : result (list string) :=
  match path_open path with
  | Some f => Ok f
  | None => Raise OSError
  end.

(** The [for i, line in enumerate(f)] loop: [i] is the running index,
    [sessions] the list built so far. *)
Fixpoint read_loop (n i : Z) (f : list string) (sessions : list record)
  : result (list record) :=
  match f with
  | [] => Ok sessions
  | line :: f' =>
      if i >=? n then Ok sessions
      else r ← loads line; read_loop n (i + 1) f' (sessions ++ [r])
  end.

Definition load_sessions (path : string) (n : Z) : result (list record) :=
  f ← open path; read_loop n 0 f [].
End loader.

(** ** Event flattener *)

Record Event : Type := { aid : value; ts : value; type : value }.
Record Session : Type := { session : Z; events : list Event }.

(** One row of the event table, a dict with the four keys. *)
Record EventRow : Type :=
  { col_session : Z; col_aid : value; col_ts : value; col_type : value }.

(** An event table either has no column at all (what [pd.DataFrame([])]
    gives) or has the four columns and any number of rows. *)
Inductive EventFrame : Type :=
  | NoColumns
  | Frame (rows : list EventRow).

Definition event_columns : list string := ["session"; "aid"; "ts"; "type"].

Definition columns (df : EventFrame) : list string :=
  match df with
  | NoColumns => []
  | Frame _ => event_columns
  end.

Definition records (df : EventFrame) : list EventRow :=
  match df with
  | NoColumns => []
  | Frame rows => rows
  end.

(** [len(df)] *)
Definition len (df : EventFrame) : nat := length (records df).

(** [df.empty]: some axis has length zero. *)
Definition empty (df : EventFrame) : bool :=
  bool_decide (length (columns df) = 0%nat) || bool_decide (len df = 0%nat).

(** [pd.DataFrame(rows)] on a list of dicts that all have the four keys. *)
Definition DataFrame (rows : list EventRow) : EventFrame :=
  match rows with
  | [] => NoColumns
  | _ :: _ => Frame rows
  end.

Definition event_row (sid : Z) (e : Event) : EventRow :=
  {| col_session := sid; col_aid := aid e; col_ts := ts e; col_type := type e |}.

(** The two nested loops, appending one dict per event. *)
Definition flatten_rows (sessions : list Session) : list EventRow :=
  foldl (λ rows s,
           let sid := session s in
           foldl (λ rows e, rows ++ [event_row sid e]) rows (events s))
        [] sessions.

Definition flatten_events (sessions : list Session) : EventFrame :=
  DataFrame (flatten_rows sessions).

(** ** Session aggregator *)

(** [df.groupby("session")] followed by the selection of column ["type"]:
    the distinct keys, sorted ([sort=True] is the default of [groupby]),
    each with the cells of its rows in table order. *)
Definition group_keys (df : EventFrame) : list Z :=
  merge_sort Z.le (remove_dups (col_session <$> records df)).

Definition group_types (df : EventFrame) (k : Z) : list value :=
  col_type <$> filter (λ r, col_session r = k) (records df).

(** ["count"]: the cells of the group that are not missing; [None] is the
    missing value of a column of objects. *)
Definition count (x : list value) : nat :=
  length (filter (λ v, v ≠ VNone) x).

(** [x == s] on a column, and [.sum()] of the resulting booleans. *)
Definition series_eq (x : list value) (s : string) : list bool :=
  (λ v, bool_decide (v = VStr s)) <$> x.

Definition series_sum (b : list bool) : nat :=
  foldr (λ t acc, ((if t : bool then 1 else 0) + acc)%nat) 0%nat b.

Record Counts : Type :=
  { total_events : nat; click_cnt : nat; cart_cnt : nat; order_cnt : nat }.

Definition agg_columns : list string :=
  ["total_events"; "click_cnt"; "cart_cnt"; "order_cnt"].

Definition agg (x : list value) : Counts :=
  {| total_events := count x;
     click_cnt := series_sum (series_eq x "clicks");
     cart_cnt := series_sum (series_eq x "carts");
     order_cnt := series_sum (series_eq x "orders") |}.

Record FeatureRow : Type := { counts :> Counts; converted : bool }.

(** The feature table: indexed by session, one row per group. *)
Record FeatureFrame : Type :=
  { feature_columns : list string;
    feature_rows : list (Z * FeatureRow) }.

Definition index (ft : FeatureFrame) : list Z := (feature_rows ft).*1.

Definition empty_msg : string :=
  "event_df is empty. Check input sessions or file path.".

Definition with_converted (c : Counts) : FeatureRow :=
  {| counts := c; converted := bool_decide (0 < order_cnt c)%nat |}.

Definition build_session_features (event_df : EventFrame) : result FeatureFrame :=
  if empty event_df then Raise (ValueError empty_msg)
  else
    let session_features :=
      (λ k, (k, agg (group_types event_df k))) <$> group_keys event_df in
    Ok {| feature_columns := agg_columns ++ ["converted"];
          feature_rows := prod_map id with_converted <$> session_features |}.


(** ** The scenario of the specification *)

Definition scenario : list Session :=
  [ {| session := 1;
       events := [ {| aid := VInt 10; ts := VInt 100; type := VStr "clicks" |};
                   {| aid := VInt 11; ts := VInt 101; type := VStr "orders" |} ] |};
    {| session := 2;
       events := [ {| aid := VInt 12; ts := VInt 102; type := VStr "carts" |} ] |} ].

Definition row (t c a o : nat) (b : bool) : FeatureRow :=
  {| counts := {| total_events := t; click_cnt := c; cart_cnt := a; order_cnt := o |};
     converted := b |}.



(** A stand-in for [json.loads] and for the file system, to run the loader:
    a line parses when it starts with an opening brace, and parses to its
    length; one file exists, with five lines, the third one malformed. *)
Definition toy_loads (line : string) : option nat :=
  if String.prefix "{" line then Some (String.length line) else None.

Definition toy_open (path : string) : option (list string) :=
  if decide (path = "train.jsonl")
  then Some ["{a}"; "{bb}"; "oops"; "{c}"; "{dddd}"]
  else None.

(** ** The flattener on untyped records

    [flatten_events] takes what [json.loads] returned, and reaches into it
    with [s["session"]], [s["events"]], [e["aid"]], [e["ts"]] and
    [e["type"]]. This second embedding keeps the records as Python objects,
    so that a missing key or a wrong shape raises as in the source. A dict
    is the list of its bindings in insertion order, read from the left. *)

#[warnings="-register-all"]
Inductive json : Type :=
  | JNull
  | JBool (b : bool)
  | JInt (z : Z)
  | JStr (s : string)
  | JList (l : list json)
  | JDict (d : list (string * json)).

Inductive flatten_error : Type :=
  | KeyError (key : string)
  | TypeError.

Global Instance flatten_error_bind : MBind (sum flatten_error) := λ A B f m,
  match m with
  | inr a => f a
  | inl e => inl e
  end.

Fixpoint dict_get (key : string) (d : list (string * json)) : option json :=
  match d with
  | [] => None
  | (k, v) :: d' => if decide (k = key) then Some v else dict_get key d'
  end.

(** [o[key]] with a string key: only a dict can be subscripted that way. *)
Definition getitem (o : json) (key : string) : flatten_error + json :=
  match o with
  | JDict d =>
      match dict_get key d with
      | Some v => inr v
      | None => inl (KeyError key)
      end
  | _ => inl TypeError
  end.

Fixpoint chars (s : string) : list json :=
  match s with
  | EmptyString => []
  | String c s' => JStr (String c EmptyString) :: chars s'
  end.

(** [for e in o]: a list gives its items, a dict its keys, a string its
    characters; nothing else can be iterated. *)
Definition iter (o : json) : flatten_error + list json :=
  match o with
  | JList l => inr l
  | JDict d => inr (JStr <$> d.*1)
  | JStr s => inr (chars s)
  | _ => inl TypeError
  end.

Record RawRow : Type :=
  { raw_session : json; raw_aid : json; raw_ts : json; raw_type : json }.

Inductive RawFrame : Type :=
  | RawNoColumns
  | RawRows (rows : list RawRow).

Definition RawDataFrame (rows : list RawRow) : RawFrame :=
  match rows with
  | [] => RawNoColumns
  | _ :: _ => RawRows rows
  end.

(** The inner loop, over the events of one session. *)
Fixpoint events_loop (sid : json) (es : list json) (rows : list RawRow)
  : flatten_error + list RawRow :=
  match es with
  | [] => inr rows
  | e :: es' =>
      a ← getitem e "aid";
      t ← getitem e "ts";
      ty ← getitem e "type";
      events_loop sid es'
        (rows ++ [ {| raw_session := sid; raw_aid := a;
                      raw_ts := t; raw_type := ty |} ])
  end.

(** The outer loop, over the sessions. *)
Fixpoint sessions_loop (sessions : list json) (rows : list RawRow)
  : flatten_error + list RawRow :=
  match sessions with
  | [] => inr rows
  | s :: sessions' =>
      sid ← getitem s "session";
      evs ← getitem s "events";
      es ← iter evs;
      rows' ← events_loop sid es rows;
      sessions_loop sessions' rows'
  end.

Definition flatten_events_json (sessions : list json) : flatten_error + RawFrame :=
  rows ← sessions_loop sessions [];
  inr (RawDataFrame rows).

(** ** Typed records seen as untyped ones *)

Definition json_of_value (v : value) : json :=
  match v with
  | VNone => JNull
  | VBool b => JBool b
  | VInt z => JInt z
  | VStr s => JStr s
  end.



(** A Python object stands for a typed event, or session, when it is a
    dict that binds the keys the flattener reads to the right values;
    what else it binds, and in which order, is left open. *)
Definition stands_for_event (o : json) (e : Event) : Prop :=
  ∃ d, o = JDict d
       ∧ dict_get "aid" d = Some (json_of_value (aid e))
       ∧ dict_get "ts" d = Some (json_of_value (ts e))
       ∧ dict_get "type" d = Some (json_of_value (type e)).

Definition stands_for_session (o : json) (s : Session) : Prop :=
  ∃ d es, o = JDict d
          ∧ dict_get "session" d = Some (JInt (session s))
          ∧ dict_get "events" d = Some (JList es)
          ∧ Forall2 stands_for_event es (events s).

Definition json_of_event (e : Event) : json :=
  JDict [ ("aid", json_of_value (aid e)); ("ts", json_of_value (ts e));
          ("type", json_of_value (type e)) ].

Definition json_of_session (s : Session) : json :=
  JDict [ ("session", JInt (session s));
          ("events", JList (json_of_event <$> events s)) ].


(** The shapes the untyped flattener accepts: an event is a dict that binds
    [aid], [ts] and [type]; a session is a dict that binds [session], and
    binds [events] to something that iterates over such events. *)
Definition event_shape (o : json) : Prop :=
  ∃ d, o = JDict d
       ∧ is_Some (dict_get "aid" d)
       ∧ is_Some (dict_get "ts" d)
       ∧ is_Some (dict_get "type" d).

Definition session_shape (o : json) : Prop :=
  ∃ d sid evs es,
    o = JDict d
    ∧ dict_get "session" d = Some sid
    ∧ dict_get "events" d = Some evs
    ∧ iter evs = inr es
    ∧ Forall event_shape es.

Definition is_dict (o : json) : bool :=
  match o with
  | JDict _ => true
  | _ => false
  end.

(** * Properties of the loader *)

Section loader_facts.
Context {record : Type}.
Implicit Types (json_loads : string → option record) (f lines : list string).

Lemma mapM_ext_elem json_loads json_loads' f :
  (∀ line, line ∈ f → json_loads line = json_loads' line) →
  mapM json_loads f = mapM json_loads' f.
Proof.
  induction f as [|line f IH]; intros Hext; [done|]. simpl.
  rewrite <- (Hext line) by left.
  rewrite IH; [done|]. intros l Hl. apply Hext. by right.
Qed.

(** The loop in one equation: it parses the next [n - i] lines, stops at
    the first one that does not parse, and otherwise returns them after
    what it had. *)
Lemma read_loop_take json_loads n i f sessions :
  read_loop json_loads n i f sessions =
    match mapM json_loads (take (Z.to_nat (n - i)) f) with
    | Some rs => Ok (sessions ++ rs)
    | None => Raise JSONDecodeError
    end.
Proof.
  revert i sessions.
  induction f as [|line f IH]; intros i sessions; simpl.
  - rewrite take_nil. simpl. by rewrite app_nil_r.
  - destruct (i >=? n) eqn:Hi.
    + replace (Z.to_nat (n - i)) with 0%nat by lia.
      simpl. by rewrite app_nil_r.
    + replace (Z.to_nat (n - i)) with (S (Z.to_nat (n - (i + 1)))) by lia.
      simpl. unfold loads.
      destruct (json_loads line) as [r|]; simpl; [|done].
      rewrite IH.
      destruct (mapM json_loads _) as [rs|]; simpl; [|done].
      by rewrite <- app_assoc.
Qed.

Lemma load_sessions_take json_loads path_open path n lines :
  path_open path = Some lines →
  load_sessions json_loads path_open path n =
    match mapM json_loads (take (Z.to_nat n) lines) with
    | Some rs => Ok rs
    | None => Raise JSONDecodeError
    end.
Proof.
  intros Hopen. unfold load_sessions, open. rewrite Hopen. simpl.
  rewrite read_loop_take, Z.sub_0_r.
  by destruct (mapM json_loads _).
Qed.
End loader_facts.

(** C5. For a readable file and [n ≥ 0], when the lines of the read prefix
    parse, [load_sessions path n] returns a list of [min n L] records, [L]
    the number of lines of the file: the parses of the first [min n L]
    lines, in file order. It never holds more than [n] records. *)
Theorem load_sessions_prefix {record : Type}
    (json_loads : string → option record)
    (path_open : string → option (list string))
    (path : string) (n : Z) (lines : list string) :
  path_open path = Some lines →
  0 ≤ n →
  Forall (λ line, is_Some (json_loads line)) (take (Z.to_nat n) lines) →
  ∃ sessions : list record,
    load_sessions json_loads path_open path n = Ok sessions
    ∧ Z.of_nat (length sessions) = Z.min n (Z.of_nat (length lines))
    ∧ json_loads <$> take (Z.to_nat (Z.min n (Z.of_nat (length lines)))) lines
      = Some <$> sessions
    ∧ Z.of_nat (length sessions) ≤ n.
Proof.
  intros Hopen Hn Hparse.
  rewrite (load_sessions_take _ _ _ _ lines Hopen).
  destruct (mapM json_loads (take (Z.to_nat n) lines)) as [rs|] eqn:Hrs.
  - apply mapM_Some in Hrs.
    assert (Hlen : length rs = (Z.to_nat n `min` length lines)%nat).
    { rewrite <- (Forall2_length _ _ _ Hrs). apply length_take. }
    exists rs. split_and!; [done|lia| |clear -Hn Hlen; lia].
    replace (Z.to_nat (Z.min n (Z.of_nat (length lines))))
      with (Z.to_nat n `min` length lines)%nat by lia.
    rewrite <- take_take, (take_ge lines (length lines)) by lia.
    clear Hlen Hparse. generalize dependent (take (Z.to_nat n) lines).
    intros f Hrs. induction Hrs as [|line r f rs' Hr _ IH]; [done|].
    rewrite !fmap_cons. by rewrite Hr, IH.
  - apply mapM_None in Hrs. apply Exists_exists in Hrs as (line & Hin & Hnone).
    rewrite Forall_forall in Hparse. destruct (Hparse line Hin) as [r Hr].
    congruence.
Qed.

Lemma load_sessions_prefix_witness :
  load_sessions toy_loads toy_open "train.jsonl" 2 = Ok [3; 4]%nat.
Proof.
  destruct (load_sessions_prefix toy_loads toy_open "train.jsonl" 2
              ["{a}"; "{bb}"; "oops"; "{c}"; "{dddd}"])
    as (sessions & Hload & _).
  - reflexivity.
  - lia.
  - vm_compute. repeat constructor; by eexists.
  - rewrite Hload. vm_compute in Hload. congruence.
Defined.

(** C8. [load_sessions] raises the error of the file system when the path
    cannot be opened, and the parse error when one of the first [n] lines
    that exist does not parse; it then returns no list at all. *)
Theorem load_sessions_errors {record : Type}
    (json_loads : string → option record)
    (path_open : string → option (list string))
    (path : string) (n : Z) :
  (path_open path = None →
   load_sessions json_loads path_open path n = Raise OSError)
  ∧ (∀ lines,
       path_open path = Some lines →
       Exists (λ line, json_loads line = None) (take (Z.to_nat n) lines) →
       load_sessions json_loads path_open path n = Raise JSONDecodeError).
Proof.
  split.
  - intros Hopen. unfold load_sessions, open. by rewrite Hopen.
  - intros lines Hopen Hbad.
    rewrite (load_sessions_take _ _ _ _ lines Hopen).
    apply mapM_None in Hbad. by rewrite Hbad.
Qed.

Lemma load_sessions_errors_witness :
  load_sessions toy_loads toy_open "missing.jsonl" 3 = Raise OSError
  ∧ load_sessions toy_loads toy_open "train.jsonl" 3 = Raise JSONDecodeError.
Proof.
  split.
  - apply (load_sessions_errors toy_loads toy_open "missing.jsonl" 3).
    reflexivity.
  - apply (load_sessions_errors toy_loads toy_open "train.jsonl" 3) with
      (lines := ["{a}"; "{bb}"; "oops"; "{c}"; "{dddd}"]).
    + reflexivity.
    + vm_compute. do 2 apply Exists_cons_tl. by apply Exists_cons_hd.
Defined.

(** C10. With [n = 0] the loader returns the empty list for every readable
    file, whatever its lines are. More generally the result depends on the
    parser only at the first [n] lines, and a prefix that parses gives a
    list whatever follows it. *)
Theorem load_sessions_beyond_prefix {record : Type}
    (json_loads json_loads' : string → option record)
    (path_open : string → option (list string))
    (path : string) (n : Z) (lines : list string) :
  path_open path = Some lines →
  load_sessions json_loads path_open path 0 = Ok []
  ∧ ((∀ line, line ∈ take (Z.to_nat n) lines →
              json_loads line = json_loads' line) →
     load_sessions json_loads path_open path n
     = load_sessions json_loads' path_open path n)
  ∧ (Forall (λ line, is_Some (json_loads line)) (take (Z.to_nat n) lines) →
     ∃ sessions, load_sessions json_loads path_open path n = Ok sessions).
Proof.
  intros Hopen. split_and!.
  - by rewrite (load_sessions_take _ _ _ _ lines Hopen).
  - intros Hext.
    rewrite !(load_sessions_take _ _ _ _ lines Hopen).
    by rewrite (mapM_ext_elem _ _ _ Hext).
  - intros Hparse.
    rewrite (load_sessions_take _ _ _ _ lines Hopen).
    destruct (mapM json_loads _) as [rs|] eqn:Hrs; [by eexists|].
    apply mapM_None, Exists_exists in Hrs as (line & Hin & Hnone).
    rewrite Forall_forall in Hparse. destruct (Hparse line Hin). congruence.
Qed.

Lemma load_sessions_beyond_prefix_witness :
  load_sessions (λ _, None : option nat) toy_open "train.jsonl" 0 = Ok []
  ∧ ∃ sessions, load_sessions toy_loads toy_open "train.jsonl" 2 = Ok sessions.
Proof.
  destruct (load_sessions_beyond_prefix (λ _, None) toy_loads toy_open
              "train.jsonl" 0 ["{a}"; "{bb}"; "oops"; "{c}"; "{dddd}"] eq_refl)
    as (Hzero & _ & _).
  destruct (load_sessions_beyond_prefix toy_loads toy_loads toy_open
              "train.jsonl" 2 ["{a}"; "{bb}"; "oops"; "{c}"; "{dddd}"] eq_refl)
    as (_ & _ & Hok).
  split; [exact Hzero|].
  apply Hok. vm_compute. repeat constructor; by eexists.
Defined.

(** * Properties of the flattener *)

Lemma flatten_session_app (sid : Z) (es : list Event) (rows : list EventRow) :
  foldl (λ rows e, rows ++ [event_row sid e]) rows es
  = rows ++ (event_row sid <$> es).
Proof.
  revert rows. induction es as [|e es IH]; intros rows; simpl.
  - by rewrite app_nil_r.
  - by rewrite IH, <- app_assoc.
Qed.

Lemma flatten_sessions_app (sessions : list Session) (rows : list EventRow) :
  foldl (λ rows s,
           let sid := session s in
           foldl (λ rows e, rows ++ [event_row sid e]) rows (events s))
        rows sessions
  = rows ++ (sessions ≫= (λ s, event_row (session s) <$> events s)).
Proof.
  revert rows. induction sessions as [|s sessions IH]; intros rows; simpl.
  - by rewrite app_nil_r.
  - by rewrite IH, flatten_session_app, <- app_assoc.
Qed.

Lemma flatten_rows_bind (sessions : list Session) :
  flatten_rows sessions
  = sessions ≫= (λ s, event_row (session s) <$> events s).
Proof. apply (flatten_sessions_app sessions []). Qed.

Lemma records_DataFrame (rows : list EventRow) : records (DataFrame rows) = rows.
Proof. by destruct rows. Qed.




(** * Properties of the aggregator *)

Lemma empty_len (df : EventFrame) : empty df = bool_decide (len df = 0%nat).
Proof. by destruct df. Qed.

(** What a returned table is made of. *)
Lemma build_session_features_Ok (df : EventFrame) (ft : FeatureFrame) :
  build_session_features df = Ok ft →
  len df ≠ 0%nat
  ∧ feature_columns ft = agg_columns ++ ["converted"]
  ∧ feature_rows ft
    = (λ k, (k, with_converted (agg (group_types df k)))) <$> group_keys df.
Proof.
  unfold build_session_features. rewrite empty_len.
  case_bool_decide as Hlen; [done|]. intros [= <-]. simpl.
  split_and!; [done..|]. by rewrite <- list_fmap_compose.
Qed.

Lemma build_session_features_total (df : EventFrame) :
  len df ≠ 0%nat → ∃ ft, build_session_features df = Ok ft.
Proof.
  intros Hlen. unfold build_session_features. rewrite empty_len.
  rewrite bool_decide_false by done. by eexists.
Qed.

Lemma index_group_keys (df : EventFrame) (ft : FeatureFrame) :
  build_session_features df = Ok ft → index ft = group_keys df.
Proof.
  intros (_ & _ & Hrows)%build_session_features_Ok.
  unfold index. rewrite Hrows, <- list_fmap_compose.
  apply list_fmap_id.
Qed.

Lemma feature_row_agg (df : EventFrame) (ft : FeatureFrame) k (r : FeatureRow) :
  build_session_features df = Ok ft →
  (k, r) ∈ feature_rows ft →
  k ∈ group_keys df ∧ r = with_converted (agg (group_types df k)).
Proof.
  intros (_ & _ & Hrows)%build_session_features_Ok. rewrite Hrows.
  intros (k' & [= -> ->] & Hk)%list_elem_of_fmap. done.
Qed.

(** ** The keys of the groups *)

Lemma elem_of_group_keys (df : EventFrame) (k : Z) :
  k ∈ group_keys df ↔ k ∈ col_session <$> records df.
Proof.
  unfold group_keys.
  by rewrite merge_sort_Permutation, elem_of_remove_dups.
Qed.

Lemma NoDup_group_keys (df : EventFrame) : NoDup (group_keys df).
Proof.
  unfold group_keys. rewrite merge_sort_Permutation. apply NoDup_remove_dups.
Qed.

Lemma StronglySorted_le_lt (l : list Z) :
  StronglySorted Z.le l → NoDup l → StronglySorted Z.lt l.
Proof.
  induction 1 as [|k l Hl IH Hk]; intros Hnd; [constructor|].
  apply NoDup_cons in Hnd as [Hkl Hnd].
  constructor; [by apply IH|].
  rewrite Forall_forall in Hk |- *. intros k' Hk'.
  specialize (Hk k' Hk'). assert (k ≠ k') by (by intros ->). lia.
Qed.

Lemma StronglySorted_group_keys (df : EventFrame) :
  StronglySorted Z.lt (group_keys df).
Proof.
  apply StronglySorted_le_lt; [|apply NoDup_group_keys].
  apply (StronglySorted_merge_sort Z.le).
Qed.

Lemma group_keys_Permutation (df df' : EventFrame) :
  records df ≡ₚ records df' → group_keys df = group_keys df'.
Proof.
  intros Hperm.
  apply (StronglySorted_unique Z.le).
  - apply (StronglySorted_merge_sort Z.le).
  - apply (StronglySorted_merge_sort Z.le).
  - apply NoDup_Permutation; [apply NoDup_group_keys..|].
    intros k. by rewrite !elem_of_group_keys, Hperm.
Qed.

(** ** The counters of one group *)

Lemma series_sum_eq (x : list value) (s : string) :
  series_sum (series_eq x s) = length (filter (λ v, v = VStr s) x).
Proof.
  induction x as [|v x IH]; [done|].
  rewrite filter_cons. simpl. rewrite IH.
  case_bool_decide; by case_decide.
Qed.

Lemma group_types_Permutation (df df' : EventFrame) (k : Z) :
  records df ≡ₚ records df' → group_types df k ≡ₚ group_types df' k.
Proof. intros Hperm. unfold group_types. by rewrite Hperm. Qed.

Lemma agg_Permutation (x y : list value) : x ≡ₚ y → agg x = agg y.
Proof.
  intros Hperm. unfold agg, count. rewrite !series_sum_eq.
  by rewrite Hperm.
Qed.

Lemma filter_none {A} (P : A → Prop) `{!∀ a, Decision (P a)} (l : list A) :
  (∀ a, a ∈ l → ¬ P a) → filter P l = [].
Proof.
  induction l as [|a l IH]; intros Hl; [done|].
  rewrite filter_cons, decide_False by (apply Hl; left).
  apply IH. intros a' Ha'. apply Hl. by right.
Qed.


(** ** The claims about the aggregator *)

(** C1. The scenario of the specification: two sessions, the first with a
    click and an order, the second with one cart event. *)
Theorem scenario_features :
  build_session_features (flatten_events scenario)
  = Ok {| feature_columns :=
            ["total_events"; "click_cnt"; "cart_cnt"; "order_cnt"; "converted"];
          feature_rows := [ (1, row 2 1 0 1 true); (2, row 1 0 1 0 false) ] |}.
Proof. vm_compute. reflexivity. Qed.

(** C2. On a table with at least one row, [build_session_features] returns
    a table whose index holds each distinct session of the input exactly
    once and nothing else, in ascending order; the order of the input rows
    does not matter, a reordered input gives the same table. *)
Theorem feature_index_sessions (df : EventFrame) :
  len df ≠ 0%nat →
  ∃ ft,
    build_session_features df = Ok ft
    ∧ NoDup (index ft)
    ∧ (∀ k, k ∈ index ft ↔ k ∈ col_session <$> records df)
    ∧ StronglySorted Z.lt (index ft)
    ∧ (∀ df', records df' ≡ₚ records df → build_session_features df' = Ok ft).
Proof.
  intros Hlen.
  destruct (build_session_features_total df Hlen) as [ft Hft].
  exists ft. rewrite (index_group_keys df ft Hft).
  split_and!.
  - done.
  - apply NoDup_group_keys.
  - intros k. apply elem_of_group_keys.
  - apply StronglySorted_group_keys.
  - intros df' Hperm.
    assert (Hlen' : len df' ≠ 0%nat).
    { unfold len in *. by rewrite Hperm. }
    rewrite <- Hft. unfold build_session_features.
    rewrite !empty_len, !bool_decide_false by done.
    rewrite (group_keys_Permutation df' df Hperm).
    do 3 f_equal. apply list_fmap_ext. intros _ k _.
    f_equal. apply agg_Permutation, group_types_Permutation, Hperm.
Qed.

Lemma feature_index_sessions_witness :
  ∃ ft,
    build_session_features
      (Frame [ {| col_session := 7; col_aid := VInt 1; col_ts := VInt 5;
                  col_type := VStr "carts" |};
               {| col_session := 3; col_aid := VInt 2; col_ts := VInt 6;
                  col_type := VStr "clicks" |};
               {| col_session := 7; col_aid := VInt 3; col_ts := VInt 7;
                  col_type := VStr "orders" |} ]) = Ok ft
    ∧ index ft = [3; 7].
Proof.
  destruct (feature_index_sessions
              (Frame [ {| col_session := 7; col_aid := VInt 1; col_ts := VInt 5;
                          col_type := VStr "carts" |};
                       {| col_session := 3; col_aid := VInt 2; col_ts := VInt 6;
                          col_type := VStr "clicks" |};
                       {| col_session := 7; col_aid := VInt 3; col_ts := VInt 7;
                          col_type := VStr "orders" |} ]))
    as (ft & Hft & _).
  - vm_compute. discriminate.
  - exists ft. split; [exact Hft|].
    vm_compute in Hft. injection Hft as <-. reflexivity.
Defined.

(** C4. [build_session_features] raises the empty-input [ValueError]
    exactly on the tables with no row; on those it returns no table, and
    on every other table it returns one. *)
Theorem build_session_features_empty (df : EventFrame) :
  (build_session_features df = Raise (ValueError empty_msg) ↔ len df = 0%nat)
  ∧ ((∃ ft, build_session_features df = Ok ft) ↔ len df ≠ 0%nat)
  ∧ (∀ e, build_session_features df = Raise e → e = ValueError empty_msg).
Proof.
  unfold build_session_features. rewrite empty_len.
  case_bool_decide as Hlen; split_and!; try split; try done.
  - by intros [ft ?].
  - by intros e [= <-].
  - by eexists.
Qed.

Lemma build_session_features_empty_witness :
  build_session_features (flatten_events []) = Raise (ValueError empty_msg)
  ∧ build_session_features (Frame []) = Raise (ValueError empty_msg)
  ∧ ∃ ft, build_session_features (flatten_events scenario) = Ok ft.
Proof.
  split_and!.
  - apply (build_session_features_empty (flatten_events [])). reflexivity.
  - apply (build_session_features_empty (Frame [])). reflexivity.
  - apply (build_session_features_empty (flatten_events scenario)).
    vm_compute. discriminate.
Defined.

(** C7. In every row of the result, [converted] is true exactly when
    [order_cnt > 0], that is, exactly when the session has an event whose
    type is ["orders"]. *)
Theorem converted_iff_order (df : EventFrame) (ft : FeatureFrame)
    (k : Z) (r : FeatureRow) :
  build_session_features df = Ok ft →
  (k, r) ∈ feature_rows ft →
  (converted r = true ↔ (order_cnt r > 0)%nat)
  ∧ (converted r = true ↔
     ∃ e, e ∈ records df ∧ col_session e = k ∧ col_type e = VStr "orders").
Proof.
  intros Hft Hr.
  destruct (feature_row_agg df ft k r Hft Hr) as [_ ->]. simpl.
  rewrite bool_decide_eq_true, series_sum_eq.
  split; [lia|].
  unfold group_types. split.
  - intros Hpos.
    destruct (filter _ _) as [|v l] eqn:Hf; [simpl in Hpos; lia|].
    assert (Hv : v ∈ filter (λ v, v = VStr "orders")
                   (col_type <$> filter (λ r, col_session r = k) (records df))).
    { rewrite Hf. left. }
    apply list_elem_of_filter in Hv as [-> Hv].
    apply list_elem_of_fmap in Hv as (e & He & Hin).
    apply list_elem_of_filter in Hin as [Hk Hin]. by exists e.
  - intros (e & Hin & Hk & Ht).
    assert (Hv : VStr "orders" ∈ filter (λ v, v = VStr "orders")
                   (col_type <$> filter (λ r, col_session r = k) (records df))).
    { apply list_elem_of_filter. split; [done|].
      rewrite <- Ht. apply list_elem_of_fmap_2.
      by apply list_elem_of_filter. }
    destruct (filter _ _); [by apply elem_of_nil in Hv|simpl; lia].
Qed.

Lemma converted_iff_order_witness :
  converted (row 2 1 0 1 true) = true ↔ (order_cnt (row 2 1 0 1 true) > 0)%nat.
Proof.
  apply (converted_iff_order (flatten_events scenario)
           {| feature_columns :=
                ["total_events"; "click_cnt"; "cart_cnt"; "order_cnt"; "converted"];
              feature_rows := [ (1, row 2 1 0 1 true); (2, row 1 0 1 0 false) ] |}
           1 (row 2 1 0 1 true)).
  - vm_compute. reflexivity.
  - left.
Defined.







(** * Further properties of the loader *)

Section loader_more.
Context {record : Type}.
Implicit Types (json_loads : string → option record) (f lines : list string).

Lemma mapM_take json_loads f (rs : list record) (m : nat) :
  mapM json_loads f = Some rs →
  mapM json_loads (take m f) = Some (take m rs).
Proof.
  rewrite !mapM_Some. apply Forall2_take.
Qed.

Lemma mapM_take_None json_loads f (m m' : nat) :
  (m ≤ m')%nat →
  mapM json_loads (take m f) = None →
  mapM json_loads (take m' f) = None.
Proof.
  intros Hm. rewrite !mapM_None, !Exists_exists.
  intros (line & Hin & Hnone). exists line. split; [|done].
  apply list_elem_of_lookup in Hin as [i Hi].
  apply lookup_take_Some in Hi as [Hi Him].
  apply list_elem_of_lookup. exists i. rewrite lookup_take_lt by lia. done.
Qed.
End loader_more.


(** X2. A sample size [n ≤ 0] gives the empty list on every readable file:
    a negative [n] is not an error, and no line is parsed. *)
Theorem load_sessions_nonpositive {record : Type}
    (json_loads : string → option record)
    (path_open : string → option (list string))
    (path : string) (n : Z) (lines : list string) :
  path_open path = Some lines →
  n ≤ 0 →
  load_sessions json_loads path_open path n = Ok [].
Proof.
  intros Hopen Hn. rewrite (load_sessions_take _ _ _ _ lines Hopen).
  by replace (Z.to_nat n) with 0%nat by lia.
Qed.

Lemma load_sessions_nonpositive_witness :
  load_sessions (λ _, None : option nat) toy_open "train.jsonl" (-3) = Ok [].
Proof.
  apply (load_sessions_nonpositive _ toy_open "train.jsonl" (-3)
           ["{a}"; "{bb}"; "oops"; "{c}"; "{dddd}"]); [reflexivity|lia].
Defined.

(** X3. Samples are prefixes of each other: when the load of [m] records
    succeeds, the load of [n ≤ m] records of the same file succeeds too and
    returns the first [n] records of the larger sample. *)
Theorem load_sessions_smaller_sample {record : Type}
    (json_loads : string → option record)
    (path_open : string → option (list string))
    (path : string) (n m : Z) (big : list record) :
  n ≤ m →
  load_sessions json_loads path_open path m = Ok big →
  load_sessions json_loads path_open path n = Ok (take (Z.to_nat n) big).
Proof.
  intros Hnm. destruct (path_open path) as [lines|] eqn:Hopen.
  - rewrite !(load_sessions_take _ _ _ _ lines Hopen).
    destruct (mapM json_loads (take (Z.to_nat m) lines)) as [rs|] eqn:Hrs;
      [|done].
    intros [= ->].
    apply (mapM_take _ _ _ (Z.to_nat n)) in Hrs.
    rewrite take_take in Hrs.
    replace (Z.to_nat n `min` Z.to_nat m)%nat with (Z.to_nat n) in Hrs by lia.
    by rewrite Hrs.
  - unfold load_sessions, open. by rewrite Hopen.
Qed.

Lemma load_sessions_smaller_sample_witness :
  load_sessions toy_loads toy_open "train.jsonl" 1 = Ok [3%nat].
Proof.
  apply (load_sessions_smaller_sample toy_loads toy_open "train.jsonl" 1 2
           [3; 4]%nat); [lia|reflexivity].
Defined.

(** X4. A failed load stays failed with a larger sample size: when the
    load of [n] records raises, the load of [m ≥ n] records of the same
    file raises the same exception. *)
Theorem load_sessions_larger_sample_fails {record : Type}
    (json_loads : string → option record)
    (path_open : string → option (list string))
    (path : string) (n m : Z) (e : exn) :
  n ≤ m →
  load_sessions json_loads path_open path n = Raise e →
  load_sessions json_loads path_open path m = Raise e.
Proof.
  intros Hnm. destruct (path_open path) as [lines|] eqn:Hopen.
  - rewrite !(load_sessions_take _ _ _ _ lines Hopen).
    destruct (mapM json_loads (take (Z.to_nat n) lines)) as [rs|] eqn:Hrs;
      [done|].
    intros [= <-].
    by rewrite (mapM_take_None _ _ (Z.to_nat n) (Z.to_nat m)) by (lia || done).
  - unfold load_sessions, open. by rewrite Hopen.
Qed.

Lemma load_sessions_larger_sample_fails_witness :
  load_sessions toy_loads toy_open "train.jsonl" 5 = Raise JSONDecodeError.
Proof.
  apply (load_sessions_larger_sample_fails toy_loads toy_open "train.jsonl" 3 5);
    [lia|reflexivity].
Defined.

(** X5. Once [n] reaches the number of lines of the file the sample size no
    longer matters: the whole file is parsed, and every [n] at or above
    the number of lines gives the result of reading all of it. *)
Theorem load_sessions_whole_file {record : Type}
    (json_loads : string → option record)
    (path_open : string → option (list string))
    (path : string) (n : Z) (lines : list string) :
  path_open path = Some lines →
  Z.of_nat (length lines) ≤ n →
  load_sessions json_loads path_open path n
  = match mapM json_loads lines with
    | Some sessions => Ok sessions
    | None => Raise JSONDecodeError
    end.
Proof.
  intros Hopen Hn. rewrite (load_sessions_take _ _ _ _ lines Hopen).
  by rewrite take_ge by lia.
Qed.

Lemma load_sessions_whole_file_witness :
  load_sessions toy_loads toy_open "train.jsonl" 50000 = Raise JSONDecodeError.
Proof.
  apply (load_sessions_whole_file toy_loads toy_open "train.jsonl" 50000
           ["{a}"; "{bb}"; "oops"; "{c}"; "{dddd}"]); [reflexivity|simpl; lia].
Defined.

(** * Further properties of the flattener *)

Lemma length_flatten_bind (sessions : list Session) :
  length (sessions ≫= (λ s, event_row (session s) <$> events s))
  = sum_list (length ∘ events <$> sessions).
Proof.
  induction sessions as [|s sessions IH]; [done|].
  rewrite bind_cons, length_app, length_fmap, IH. done.
Qed.

Lemma records_flatten_events (sessions : list Session) :
  records (flatten_events sessions)
  = sessions ≫= (λ s, event_row (session s) <$> events s).
Proof. unfold flatten_events. by rewrite records_DataFrame, flatten_rows_bind. Qed.

Lemma filter_session_rows (k sid : Z) (es : list Event) :
  filter (λ r, col_session r = k) (event_row sid <$> es)
  = if decide (sid = k) then event_row sid <$> es else [].
Proof.
  induction es as [|e es IH]; [by case_decide|].
  rewrite fmap_cons, filter_cons, IH. simpl. by repeat case_decide.
Qed.

Lemma filter_session_bind (k : Z) (sessions : list Session) :
  filter (λ r, col_session r = k)
    (sessions ≫= (λ s, event_row (session s) <$> events s))
  = filter (λ s, session s = k) sessions
      ≫= (λ s, event_row (session s) <$> events s).
Proof.
  induction sessions as [|s sessions IH]; [done|].
  rewrite bind_cons, filter_app, filter_session_rows, filter_cons, IH.
  case_decide; [by rewrite bind_cons|done].
Qed.

Lemma fmap_type_bind (sessions : list Session) :
  col_type <$> (sessions ≫= (λ s, event_row (session s) <$> events s))
  = sessions ≫= (λ s, type <$> events s).
Proof.
  induction sessions as [|s sessions IH]; [done|].
  rewrite !bind_cons, fmap_app, IH, <- list_fmap_compose. done.
Qed.



(** X7. A session with an empty list of events leaves no trace in the event
    table: dropping such sessions from the input gives the same table. *)
Theorem flatten_events_drops_empty_sessions (sessions : list Session) :
  flatten_events sessions
  = flatten_events (filter (λ s, events s ≠ []) sessions).
Proof.
  unfold flatten_events. rewrite !flatten_rows_bind. f_equal.
  induction sessions as [|s sessions IH]; [done|].
  rewrite filter_cons, bind_cons, IH.
  case_decide as Hs; [by rewrite bind_cons|].
  by rewrite Hs.
Qed.





(** * Further properties of the aggregator and of the pipeline *)

Lemma build_session_features_Raise (df : EventFrame) :
  build_session_features df = Raise (ValueError empty_msg) ↔ len df = 0%nat.
Proof.
  unfold build_session_features. rewrite empty_len.
  by case_bool_decide.
Qed.

Lemma sum_list_fmap_add {A} (f g : A → nat) (l : list A) :
  sum_list ((λ a, f a + g a)%nat <$> l)
  = (sum_list (f <$> l) + sum_list (g <$> l))%nat.
Proof. induction l as [|a l IH]; [done|]. rewrite !fmap_cons. simpl. lia. Qed.

Lemma sum_list_indicator (keys : list Z) (a : Z) (c : nat) :
  NoDup keys → a ∈ keys →
  sum_list ((λ k, if decide (a = k) then c else 0%nat) <$> keys) = c.
Proof.
  induction keys as [|k keys IH]; intros Hnd Ha; [by apply elem_of_nil in Ha|].
  apply NoDup_cons in Hnd as [Hk Hnd]. rewrite fmap_cons. simpl.
  destruct (decide (a = k)) as [->|Hne].
  - rewrite (list_fmap_ext _ (λ _, 0%nat) keys).
    + rewrite sum_list_fmap_const. lia.
    + intros i k' Hk'. apply list_elem_of_lookup_2 in Hk'.
      rewrite decide_False; [done|]. by intros <-.
  - apply elem_of_cons in Ha as [?|Ha]; [done|]. by rewrite IH.
Qed.

Lemma length_filter_cons {A} (P : A → Prop) `{!∀ a, Decision (P a)}
    (a : A) (l : list A) :
  length (filter P (a :: l))
  = (length (filter P [a]) + length (filter P l))%nat.
Proof. rewrite !filter_cons, filter_nil. by case_decide. Qed.

(** Counting in each group and adding up is counting in the whole column. *)
Lemma sum_over_groups (P : value → Prop) `{!∀ v, Decision (P v)}
    (keys : list Z) (rows : list EventRow) :
  NoDup keys →
  (∀ r, r ∈ rows → col_session r ∈ keys) →
  sum_list
    ((λ k, length (filter P (col_type <$> filter (λ r, col_session r = k) rows)))
       <$> keys)
  = length (filter P (col_type <$> rows)).
Proof.
  intros Hnd. induction rows as [|r rows IH]; intros Hkeys.
  - simpl. rewrite sum_list_fmap_const. lia.
  - rewrite (list_fmap_ext _
      (λ k, ((if decide (col_session r = k)
              then length (filter P [col_type r]) else 0)
             + length (filter P (col_type <$> filter (λ r, col_session r = k) rows)))%nat)
      keys).
    + rewrite sum_list_fmap_add, sum_list_indicator, IH.
      * by rewrite fmap_cons, (length_filter_cons P _ (col_type <$> rows)).
      * intros r' Hr'. apply Hkeys. by right.
      * done.
      * apply Hkeys. left.
    + intros i k _. rewrite filter_cons. case_decide; [|done].
      by rewrite fmap_cons, (length_filter_cons P _ (col_type <$> filter _ rows)).
Qed.

Lemma sessions_in_group_keys (df : EventFrame) (r : EventRow) :
  r ∈ records df → col_session r ∈ group_keys df.
Proof. intros Hr. by apply elem_of_group_keys, list_elem_of_fmap_2. Qed.

(** X10. The pipeline [build_session_features(flatten_events(sessions))]
    raises the empty-input error exactly when no session has an event,
    the empty list of sessions included. *)
Theorem pipeline_raises_iff_no_event (sessions : list Session) :
  build_session_features (flatten_events sessions) = Raise (ValueError empty_msg)
  ↔ Forall (λ s, events s = []) sessions.
Proof.
  rewrite build_session_features_Raise. unfold len.
  rewrite records_flatten_events, length_flatten_bind.
  induction sessions as [|s sessions IH]; [by split|].
  rewrite fmap_cons, Forall_cons. simpl.
  rewrite <- IH, <- length_zero_iff_nil. lia.
Qed.

(** X11. The sessions of the feature table of the pipeline are the
    identifiers of the input sessions that have at least one event: a
    session without events gets no row. *)
Theorem pipeline_index (sessions : list Session) (ft : FeatureFrame) (k : Z) :
  build_session_features (flatten_events sessions) = Ok ft →
  k ∈ index ft ↔ ∃ s, s ∈ sessions ∧ session s = k ∧ events s ≠ [].
Proof.
  intros Hft. rewrite (index_group_keys _ _ Hft), elem_of_group_keys.
  rewrite records_flatten_events, list_elem_of_fmap. split.
  - intros (r & -> & Hr).
    apply list_elem_of_bind in Hr as (s & Hr & Hs).
    apply list_elem_of_fmap in Hr as (e & -> & He).
    exists s. split_and!; [done..|]. intros Hnil. rewrite Hnil in He.
    by apply elem_of_nil in He.
  - intros (s & Hs & <- & Hev).
    destruct (events s) as [|e es] eqn:Hes; [done|].
    exists (event_row (session s) e). split; [done|].
    apply list_elem_of_bind. exists s. split; [|done].
    rewrite Hes. left.
Qed.

Lemma pipeline_index_witness :
  2 ∈ index {| feature_columns :=
                 ["total_events"; "click_cnt"; "cart_cnt"; "order_cnt"; "converted"];
               feature_rows := [ (1, row 2 1 0 1 true); (2, row 1 0 1 0 false) ] |}.
Proof.
  apply (pipeline_index scenario); [vm_compute; reflexivity|].
  eexists. split_and!; [right; left|reflexivity|discriminate].
Defined.

(** X12. Session records that share an identifier are merged: the row of
    an identifier aggregates the events of all the records that carry it,
    taken in input order. *)
Theorem pipeline_merges_sessions (sessions : list Session) (ft : FeatureFrame)
    (k : Z) (r : FeatureRow) :
  build_session_features (flatten_events sessions) = Ok ft →
  (k, r) ∈ feature_rows ft →
  r = with_converted
        (agg (filter (λ s, session s = k) sessions ≫= (λ s, type <$> events s))).
Proof.
  intros Hft Hr. destruct (feature_row_agg _ _ _ _ Hft Hr) as [_ ->].
  unfold group_types.
  by rewrite records_flatten_events, filter_session_bind, fmap_type_bind.
Qed.

Lemma pipeline_merges_sessions_witness :
  row 2 1 0 1 true
  = with_converted
      (agg (filter (λ s, session s = 1) scenario ≫= (λ s, type <$> events s))).
Proof.
  apply (pipeline_merges_sessions scenario
           {| feature_columns :=
                ["total_events"; "click_cnt"; "cart_cnt"; "order_cnt"; "converted"];
              feature_rows := [ (1, row 2 1 0 1 true); (2, row 1 0 1 0 false) ] |}
           1 (row 2 1 0 1 true)); [vm_compute; reflexivity|left].
Defined.

(** X13. Nothing is counted twice and nothing is lost across the groups:
    each counter, summed over the rows of the feature table, is that
    counter taken over the whole [type] column of the event table. *)
Theorem counters_sum_over_table (df : EventFrame) (ft : FeatureFrame) :
  build_session_features df = Ok ft →
  let whole := agg (col_type <$> records df) in
  sum_list ((λ kr : Z * FeatureRow, total_events kr.2) <$> feature_rows ft) = total_events whole
  ∧ sum_list ((λ kr : Z * FeatureRow, click_cnt kr.2) <$> feature_rows ft) = click_cnt whole
  ∧ sum_list ((λ kr : Z * FeatureRow, cart_cnt kr.2) <$> feature_rows ft) = cart_cnt whole
  ∧ sum_list ((λ kr : Z * FeatureRow, order_cnt kr.2) <$> feature_rows ft) = order_cnt whole.
Proof.
  intros (_ & _ & Hrows)%build_session_features_Ok. simpl.
  rewrite Hrows, <- !list_fmap_compose. unfold compose. simpl.
  unfold count, group_types.
  setoid_rewrite series_sum_eq.
  split_and!; apply sum_over_groups;
    auto using NoDup_group_keys, sessions_in_group_keys.
Qed.

Lemma counters_sum_over_table_witness :
  sum_list ((λ kr : Z * FeatureRow, total_events kr.2)
              <$> [ (1, row 2 1 0 1 true); (2, row 1 0 1 0 false) ])
  = total_events (agg (col_type <$> records (flatten_events scenario))).
Proof.
  apply (counters_sum_over_table (flatten_events scenario)
           {| feature_columns :=
                ["total_events"; "click_cnt"; "cart_cnt"; "order_cnt"; "converted"];
              feature_rows := [ (1, row 2 1 0 1 true); (2, row 1 0 1 0 false) ] |}).
  vm_compute. reflexivity.
Defined.

Lemma elem_of_feature_rows (df : EventFrame) (ft : FeatureFrame)
    (k : Z) (r : FeatureRow) :
  build_session_features df = Ok ft →
  (k, r) ∈ feature_rows ft
  ↔ k ∈ group_keys df ∧ r = with_converted (agg (group_types df k)).
Proof.
  intros Hft. split; [by apply feature_row_agg|].
  intros [Hk ->].
  apply build_session_features_Ok in Hft as (_ & _ & ->).
  apply list_elem_of_fmap. by exists k.
Qed.

Lemma group_types_pairs (df : EventFrame) (k : Z) :
  group_types df k
  = snd <$> filter (λ p, p.1 = k)
              ((λ r, (col_session r, col_type r)) <$> records df).
Proof.
  unfold group_types. induction (records df) as [|r rows IH]; [done|].
  rewrite fmap_cons, !filter_cons. simpl.
  case_decide; by rewrite ?fmap_cons, IH.
Qed.

(** X14. A returned feature table is never empty, and never has more rows
    than the event table it was built from. *)
Theorem feature_table_size (df : EventFrame) (ft : FeatureFrame) :
  build_session_features df = Ok ft →
  feature_rows ft ≠ [] ∧ (length (feature_rows ft) ≤ len df)%nat.
Proof.
  intros Hft.
  destruct (build_session_features_Ok df ft Hft) as (Hlen & _ & Hrows).
  rewrite Hrows. split.
  - unfold len in Hlen. destruct (records df) as [|r rows] eqn:Hrec; [done|].
    assert (Hin : col_session r ∈ group_keys df).
    { apply sessions_in_group_keys. rewrite Hrec. left. }
    destruct (group_keys df); [by apply elem_of_nil in Hin|done].
  - rewrite length_fmap. unfold len.
    rewrite <- (length_fmap col_session (records df)).
    apply submseteq_length, NoDup_submseteq; [apply NoDup_group_keys|].
    intros k. by rewrite elem_of_group_keys.
Qed.

Lemma feature_table_size_witness :
  [ (1, row 2 1 0 1 true); (2, row 1 0 1 0 false) ] ≠ []
  ∧ (length [ (1, row 2 1 0 1 true); (2, row 1 0 1 0 false) ]
     ≤ len (flatten_events scenario))%nat.
Proof.
  apply (feature_table_size (flatten_events scenario)
           {| feature_columns :=
                ["total_events"; "click_cnt"; "cart_cnt"; "order_cnt"; "converted"];
              feature_rows := [ (1, row 2 1 0 1 true); (2, row 1 0 1 0 false) ] |}).
  vm_compute. reflexivity.
Defined.

(** X15. The aggregator reads the columns [session] and [type] only: two
    event tables whose rows agree on these two columns give the same
    outcome, whatever their [aid] and [ts] columns hold. *)
Theorem features_ignore_aid_ts (df df' : EventFrame) :
  (λ r, (col_session r, col_type r)) <$> records df
  = (λ r, (col_session r, col_type r)) <$> records df' →
  build_session_features df = build_session_features df'.
Proof.
  intros Hpairs.
  assert (Hlen : len df = len df').
  { unfold len.
    by rewrite <- (length_fmap (λ r, (col_session r, col_type r)) (records df)),
         Hpairs, length_fmap. }
  assert (Hkeys : group_keys df = group_keys df').
  { unfold group_keys. do 2 f_equal.
    apply (f_equal (fmap fst)) in Hpairs.
    by rewrite <- !list_fmap_compose in Hpairs. }
  unfold build_session_features. rewrite !empty_len, Hlen, Hkeys.
  case_bool_decide; [done|]. do 3 f_equal.
  apply list_fmap_ext. intros _ k _.
  by rewrite !group_types_pairs, Hpairs.
Qed.

Lemma features_ignore_aid_ts_witness :
  build_session_features
    (Frame [ {| col_session := 4; col_aid := VInt 1; col_ts := VInt 9;
                col_type := VStr "orders" |} ])
  = build_session_features
      (Frame [ {| col_session := 4; col_aid := VNone; col_ts := VStr "late";
                  col_type := VStr "orders" |} ]).
Proof. apply features_ignore_aid_ts. reflexivity. Defined.

(** X16. Rows added to the event table for one session leave the feature
    rows of all the other sessions as they were. *)
Theorem features_local (df df' : EventFrame) (ft ft' : FeatureFrame)
    (extra : list EventRow) (k' k : Z) (r : FeatureRow) :
  records df' = records df ++ extra →
  (∀ x, x ∈ extra → col_session x = k') →
  build_session_features df = Ok ft →
  build_session_features df' = Ok ft' →
  k ≠ k' →
  (k, r) ∈ feature_rows ft ↔ (k, r) ∈ feature_rows ft'.
Proof.
  intros Hrec Hextra Hft Hft' Hk.
  rewrite (elem_of_feature_rows df ft k r Hft).
  rewrite (elem_of_feature_rows df' ft' k r Hft').
  assert (Hnone : filter (λ x, col_session x = k) extra = []).
  { apply filter_none. intros x Hx Hkx. apply Hk. rewrite <- Hkx. by apply Hextra. }
  assert (Htypes : group_types df' k = group_types df k).
  { unfold group_types. by rewrite Hrec, filter_app, Hnone, app_nil_r. }
  assert (Hkeys : k ∈ group_keys df' ↔ k ∈ group_keys df).
  { rewrite !elem_of_group_keys, Hrec, fmap_app, elem_of_app.
    split; [|by left]. intros [?|Hin]; [done|].
    apply list_elem_of_fmap in Hin as (x & -> & Hx).
    destruct Hk. by apply Hextra. }
  by rewrite Htypes, Hkeys.
Qed.

Lemma features_local_witness :
  (1, row 2 1 0 1 true)
    ∈ [ (1, row 2 1 0 1 true); (2, row 1 0 1 0 false) ]
  ↔ (1, row 2 1 0 1 true)
    ∈ [ (1, row 2 1 0 1 true); (2, row 2 0 1 1 true) ].
Proof.
  apply (features_local (flatten_events scenario)
           (Frame (records (flatten_events scenario)
                   ++ [ {| col_session := 2; col_aid := VInt 13; col_ts := VInt 103;
                           col_type := VStr "orders" |} ]))
           {| feature_columns :=
                ["total_events"; "click_cnt"; "cart_cnt"; "order_cnt"; "converted"];
              feature_rows := [ (1, row 2 1 0 1 true); (2, row 1 0 1 0 false) ] |}
           {| feature_columns :=
                ["total_events"; "click_cnt"; "cart_cnt"; "order_cnt"; "converted"];
              feature_rows := [ (1, row 2 1 0 1 true); (2, row 2 0 1 1 true) ] |}
           [ {| col_session := 2; col_aid := VInt 13; col_ts := VInt 103;
                col_type := VStr "orders" |} ] 2 1 (row 2 1 0 1 true)).
  - reflexivity.
  - by intros x ->%list_elem_of_singleton.
  - vm_compute. reflexivity.
  - vm_compute. reflexivity.
  - lia.
Defined.

(** * Properties of the flattener on untyped records *)



Lemma stands_for_json_of_session (sessions : list Session) :
  Forall2 stands_for_session (json_of_session <$> sessions) sessions.
Proof.
  apply Forall2_fmap_l, Forall_Forall2_diag, Forall_forall. intros s _.
  eexists _, _. split_and!; [done..|].
  apply Forall2_fmap_l, Forall_Forall2_diag, Forall_forall. intros e _.
  eexists. split_and!; done.
Qed.



Lemma events_loop_acc (sid : json) (es : list json) (rows : list RawRow) :
  events_loop sid es rows
  = (new ← events_loop sid es []; inr (rows ++ new)).
Proof.
  revert rows. induction es as [|e es IH]; intros rows.
  - simpl. by rewrite app_nil_r.
  - cbn [events_loop].
    destruct (getitem e "aid") as [err|a]; cbn [mbind flatten_error_bind]; [done|].
    destruct (getitem e "ts") as [err|t]; cbn [mbind flatten_error_bind]; [done|].
    destruct (getitem e "type") as [err|ty]; cbn [mbind flatten_error_bind]; [done|].
    cbn [mbind flatten_error_bind].
    rewrite IH, (IH ([] ++ _)).
    destruct (events_loop sid es []) as [err|new]; cbn [mbind flatten_error_bind]; [done|].
    cbn [mbind flatten_error_bind]. by rewrite app_nil_l, <- app_assoc.
Qed.

Lemma sessions_loop_acc (sessions : list json) (rows : list RawRow) :
  sessions_loop sessions rows
  = (new ← sessions_loop sessions []; inr (rows ++ new)).
Proof.
  revert rows. induction sessions as [|s sessions IH]; intros rows.
  - simpl. by rewrite app_nil_r.
  - cbn [sessions_loop].
    destruct (getitem s "session") as [err|sid]; cbn [mbind flatten_error_bind]; [done|].
    destruct (getitem s "events") as [err|evs]; cbn [mbind flatten_error_bind]; [done|].
    destruct (iter evs) as [err|es]; cbn [mbind flatten_error_bind]; [done|].
    cbn [mbind flatten_error_bind].
    rewrite (events_loop_acc sid es rows).
    destruct (events_loop sid es []) as [err|new]; cbn [mbind flatten_error_bind]; [done|].
    cbn [mbind flatten_error_bind].
    rewrite IH, (IH new).
    destruct (sessions_loop sessions []) as [err|new']; cbn [mbind flatten_error_bind]; [done|].
    cbn [mbind flatten_error_bind]. by rewrite app_assoc.
Qed.

Lemma sessions_loop_app (sessions1 sessions2 : list json) (rows : list RawRow) :
  sessions_loop (sessions1 ++ sessions2) rows
  = (rows' ← sessions_loop sessions1 rows; sessions_loop sessions2 rows').
Proof.
  revert rows. induction sessions1 as [|s sessions1 IH]; intros rows; [done|].
  cbn [sessions_loop app].
  destruct (getitem s "session") as [err|sid]; cbn [mbind flatten_error_bind]; [done|].
  destruct (getitem s "events") as [err|evs]; cbn [mbind flatten_error_bind]; [done|].
  destruct (iter evs) as [err|es]; cbn [mbind flatten_error_bind]; [done|].
  cbn [mbind flatten_error_bind].
  destruct (events_loop sid es rows) as [err|rows']; cbn [mbind flatten_error_bind]; [done|].
  cbn [mbind flatten_error_bind]. apply IH.
Qed.

Lemma flatten_events_json_inl (sessions : list json) (err : flatten_error) :
  flatten_events_json sessions = inl err ↔ sessions_loop sessions [] = inl err.
Proof.
  unfold flatten_events_json.
  destruct (sessions_loop sessions []); cbn [mbind flatten_error_bind];
    split; congruence.
Qed.

Lemma flatten_events_json_inr (sessions : list json) :
  (∃ df, flatten_events_json sessions = inr df)
  ↔ ∃ rows, sessions_loop sessions [] = inr rows.
Proof.
  unfold flatten_events_json.
  destruct (sessions_loop sessions []) as [err|rows];
    cbn [mbind flatten_error_bind].
  - split; by intros [? ?].
  - split; intros _; by eexists.
Qed.

(** X18. The first record that cannot be flattened decides the outcome:
    an error is raised whatever follows the failing records, and records
    that flatten well in front of others do not change the error, if any,
    that the others raise. No table is returned in either case. *)
Theorem flatten_events_json_first_error (sessions rest : list json)
    (err : flatten_error) :
  (flatten_events_json sessions = inl err →
   flatten_events_json (sessions ++ rest) = inl err)
  ∧ ((∃ df, flatten_events_json sessions = inr df) →
     (flatten_events_json (sessions ++ rest) = inl err
      ↔ flatten_events_json rest = inl err)).
Proof.
  rewrite !flatten_events_json_inl, flatten_events_json_inr, sessions_loop_app.
  split.
  - intros ->. done.
  - intros [rows ->]. cbn [mbind flatten_error_bind].
    rewrite sessions_loop_acc.
    destruct (sessions_loop rest []); cbn [mbind flatten_error_bind];
      split; congruence.
Qed.

Lemma flatten_events_json_first_error_witness :
  flatten_events_json
    ([ JDict [ ("session", JInt 1); ("events", JList []) ] ]
     ++ [ JDict [ ("events", JList []) ] ])
  = inl (KeyError "session").
Proof.
  apply (flatten_events_json_first_error
           [ JDict [ ("session", JInt 1); ("events", JList []) ] ]
           [ JDict [ ("events", JList []) ] ]).
  - by eexists.
  - reflexivity.
Defined.

Lemma event_shape_getitem (e : json) :
  event_shape e
  ↔ ∃ a t ty, getitem e "aid" = inr a ∧ getitem e "ts" = inr t
              ∧ getitem e "type" = inr ty.
Proof.
  split.
  - intros (d & -> & [a Ha] & [t Ht] & [ty Hty]). exists a, t, ty.
    cbn [getitem]. by rewrite Ha, Ht, Hty.
  - intros (a & t & ty & Ha & Ht & Hty).
    destruct e as [| | | | |d]; try discriminate Ha.
    exists d. cbn [getitem] in Ha, Ht, Hty.
    destruct (dict_get "aid" d); [|discriminate Ha].
    destruct (dict_get "ts" d); [|discriminate Ht].
    destruct (dict_get "type" d); [|discriminate Hty].
    split_and!; by eauto.
Qed.

Lemma events_loop_shape (sid : json) (es : list json) (rows : list RawRow) :
  (∃ rows', events_loop sid es rows = inr rows') ↔ Forall event_shape es.
Proof.
  revert rows. induction es as [|e es IH]; intros rows.
  - split; [constructor|by eexists].
  - rewrite Forall_cons, event_shape_getitem. cbn [events_loop].
    destruct (getitem e "aid") as [err|a]; cbn [mbind flatten_error_bind];
      [split; [by intros [? ?]|by intros [(? & ? & ? & ? & _) _]]|].
    destruct (getitem e "ts") as [err|t]; cbn [mbind flatten_error_bind];
      [split; [by intros [? ?]|by intros [(? & ? & ? & _ & ? & _) _]]|].
    destruct (getitem e "type") as [err|ty]; cbn [mbind flatten_error_bind];
      [split; [by intros [? ?]|by intros [(? & ? & ? & _ & _ & ?) _]]|].
    rewrite IH. split; [|by intros [_ ?]].
    intros Hes. split; [by eexists _, _, _|done].
Qed.

Lemma sessions_loop_shape (sessions : list json) (rows : list RawRow) :
  (∃ rows', sessions_loop sessions rows = inr rows')
  ↔ Forall session_shape sessions.
Proof.
  revert rows. induction sessions as [|s sessions IH]; intros rows.
  - split; [constructor|by eexists].
  - rewrite Forall_cons. cbn [sessions_loop].
    destruct s as [| | | | |d];
      try (split; [by intros [? ?]|by intros [(? & ? & ? & ? & ? & _) _]]).
    cbn [getitem].
    destruct (dict_get "session" d) as [sid|] eqn:Hsid;
      cbn [mbind flatten_error_bind];
      [|split; [by intros [? ?]
               |intros [(? & ? & ? & ? & [= <-] & ? & _) _]; congruence]].
    destruct (dict_get "events" d) as [evs|] eqn:Hevs;
      cbn [mbind flatten_error_bind];
      [|split; [by intros [? ?]
               |intros [(? & ? & ? & ? & [= <-] & _ & ? & _) _]; congruence]].
    destruct (iter evs) as [err|es] eqn:Hiter;
      cbn [mbind flatten_error_bind];
      [split; [by intros [? ?]
              |intros [(? & ? & ? & ? & [= <-] & _ & ? & ? & _) _]; congruence]|].
    destruct (events_loop sid es rows) as [err|rows'] eqn:Hloop;
      cbn [mbind flatten_error_bind].
    + split; [by intros [? ?]|].
      intros [(d' & sid' & evs' & es' & [= <-] & _ & Hevs' & Hiter' & Hes) _].
      assert (es' = es) as -> by congruence.
      apply (events_loop_shape sid es rows) in Hes as [? ?]. congruence.
    + rewrite IH. split; [|by intros [_ ?]].
      intros Hrest. split; [|done].
      exists d, sid, evs, es. split_and!; [done..|].
      apply (events_loop_shape sid es rows). by eexists.
Qed.

(** X19. The flattener on untyped records returns a table exactly when
    every record is a dict that binds [session], and binds [events] to
    something it can iterate over whose items are dicts that bind [aid],
    [ts] and [type]; on any other input it raises. *)
Theorem flatten_events_json_succeeds (sessions : list json) :
  (∃ df, flatten_events_json sessions = inr df)
  ↔ Forall session_shape sessions.
Proof. by rewrite flatten_events_json_inr, sessions_loop_shape. Qed.

(** X20. Which key a [KeyError] names. Within a record [session] is read
    before [events], and within an event [aid] before [ts] before [type]:
    the error names the first of these keys that is missing, in the first
    event that misses one. *)
Theorem flatten_events_json_missing_key (d : list (string * json))
    (rest : list json) :
  (dict_get "session" d = None →
   flatten_events_json (JDict d :: rest) = inl (KeyError "session"))
  ∧ (is_Some (dict_get "session" d) →
     dict_get "events" d = None →
     flatten_events_json (JDict d :: rest) = inl (KeyError "events"))
  ∧ (∀ good ed es,
       is_Some (dict_get "session" d) →
       dict_get "events" d = Some (JList (good ++ JDict ed :: es)) →
       Forall event_shape good →
       (dict_get "aid" ed = None →
        flatten_events_json (JDict d :: rest) = inl (KeyError "aid"))
       ∧ (is_Some (dict_get "aid" ed) →
          dict_get "ts" ed = None →
          flatten_events_json (JDict d :: rest) = inl (KeyError "ts"))
       ∧ (is_Some (dict_get "aid" ed) →
          is_Some (dict_get "ts" ed) →
          dict_get "type" ed = None →
          flatten_events_json (JDict d :: rest) = inl (KeyError "type"))).
Proof.
  unfold flatten_events_json. cbn [sessions_loop getitem].
  split_and!.
  - by intros ->.
  - by intros [sid ->] ->.
  - intros good ed es [sid ->] -> Hgood.
    cbn [mbind flatten_error_bind iter].
    assert (Hloop : ∀ err,
      events_loop sid [JDict ed] [] = inl err →
      events_loop sid (good ++ JDict ed :: es) [] = inl err).
    { intros err Herr. generalize (@nil RawRow).
      induction Hgood as [|e good He _ IH]; intros rows.
      - rewrite events_loop_acc. cbn [app events_loop] in Herr |- *.
        destruct (getitem (JDict ed) "aid") as [?|a];
          cbn [mbind flatten_error_bind] in Herr |- *; [done|].
        destruct (getitem (JDict ed) "ts") as [?|t];
          cbn [mbind flatten_error_bind] in Herr |- *; [done|].
        destruct (getitem (JDict ed) "type") as [?|ty];
          cbn [mbind flatten_error_bind] in Herr |- *; [done|].
        done.
      - apply event_shape_getitem in He as (a & t & ty & Ha & Ht & Hty).
        cbn [app events_loop]. rewrite Ha, Ht, Hty.
        cbn [mbind flatten_error_bind]. apply IH. }
    split_and!.
    + intros Ha. rewrite (Hloop (KeyError "aid")); [done|].
      cbn [events_loop getitem]. by rewrite Ha.
    + intros [a Ha] Ht. rewrite (Hloop (KeyError "ts")); [done|].
      cbn [events_loop getitem]. by rewrite Ha, Ht.
    + intros [a Ha] [t Ht] Hty. rewrite (Hloop (KeyError "type")); [done|].
      cbn [events_loop getitem]. by rewrite Ha, Ht, Hty.
Qed.

Lemma flatten_events_json_missing_key_witness :
  flatten_events_json
    [ JDict [ ("session", JInt 1);
              ("events", JList [
                 JDict [ ("aid", JInt 10); ("ts", JInt 100); ("type", JStr "clicks") ];
                 JDict [ ("aid", JInt 11); ("type", JStr "orders") ] ]) ] ]
  = inl (KeyError "ts").
Proof.
  destruct (flatten_events_json_missing_key
              [ ("session", JInt 1);
                ("events", JList [
                   JDict [ ("aid", JInt 10); ("ts", JInt 100); ("type", JStr "clicks") ];
                   JDict [ ("aid", JInt 11); ("type", JStr "orders") ] ]) ]
              []) as (_ & _ & Hevent).
  destruct (Hevent
              [ JDict [ ("aid", JInt 10); ("ts", JInt 100); ("type", JStr "clicks") ] ]
              [ ("aid", JInt 11); ("type", JStr "orders") ] [])
    as (_ & Hts & _).
  - by eexists.
  - reflexivity.
  - repeat constructor. eexists. split_and!; [done|by eexists..].
  - apply Hts; [by eexists|reflexivity].
Defined.

(** X21. Wrong shapes. A record or an event that is not a dict raises a
    [TypeError], and so does an [events] value that is [None], a boolean
    or a number. An [events] value that is an empty list, an empty dict or
    an empty string is iterated without a complaint: the record then adds
    no row, and the records after it are flattened as if it were not
    there. *)
Theorem flatten_events_json_wrong_shape (o : json) (d : list (string * json))
    (sid evs : json) (rest : list json) :
  (is_dict o = false →
   flatten_events_json (o :: rest) = inl TypeError)
  ∧ (dict_get "session" d = Some sid →
     dict_get "events" d = Some evs →
     (evs ∈ [JNull; JBool true; JBool false] ∨ (∃ z, evs = JInt z) →
      flatten_events_json (JDict d :: rest) = inl TypeError)
     ∧ (∀ es, evs = JList (o :: es) → is_dict o = false →
              flatten_events_json (JDict d :: rest) = inl TypeError)
     ∧ (evs ∈ [JList []; JDict []; JStr ""] →
        flatten_events_json (JDict d :: rest) = flatten_events_json rest)).
Proof.
  unfold flatten_events_json. split.
  - intros Ho. by destruct o.
  - intros Hsid Hevs. cbn [sessions_loop getitem]. rewrite Hsid, Hevs.
    cbn [mbind flatten_error_bind]. split_and!.
    + intros [Hin|[z ->]]; [|done].
      rewrite !elem_of_cons, elem_of_nil in Hin.
      by destruct Hin as [->|[->|[->|[]]]].
    + intros es -> Ho. by destruct o.
    + intros Hin. rewrite !elem_of_cons, elem_of_nil in Hin.
      by destruct Hin as [->|[->|[->|[]]]].
Qed.

Lemma flatten_events_json_wrong_shape_witness :
  flatten_events_json
    [ JDict [ ("session", JInt 1); ("events", JDict []) ];
      JDict [ ("session", JInt 2); ("events", JNull) ] ]
  = flatten_events_json [ JDict [ ("session", JInt 2); ("events", JNull) ] ].
Proof.
  destruct (flatten_events_json_wrong_shape JNull
              [ ("session", JInt 1); ("events", JDict []) ] (JInt 1) (JDict [])
              [ JDict [ ("session", JInt 2); ("events", JNull) ] ])
    as (_ & Hevents).
  destruct Hevents as (_ & _ & Hempty); [reflexivity..|].
  apply Hempty. right. left.
Defined.
